(** * Property Search MCP server: query construction and upstream call

    A shallow embedding of [main.py]: the tool [search_properties] and the
    internal [_search_melo_properties] that builds the query of the Melo API,
    issues the GET and classifies the outcome.

    Python values are modelled as the code has them: [int] as [Z] (unbounded),
    [str] as [string], [Optional[T]] as [option T], the list of tuples
    [params] as a list of pairs (order and repeated keys matter), the two
    label dictionaries and the transport headers as finite maps.  Logging and
    the HTTP call are effects: they are recorded in a trace, and an
    exception ends the computation. *)

From stdpp Require Import gmap strings pretty list.
From Stdlib Require Import Floats.SpecFloat.

Set Warnings "-register-all".
Open Scope Z_scope.

(** ** Python values *)

(** [str(n)] for an [int]: decimal digits, with a leading minus sign for
    negative numbers. *)
Definition str (n : Z) : string := pretty n.
Arguments str : simpl never.

(** [s * n] for a string, as in ["=" * 80]. *)
Fixpoint str_mul (s : string) (n : nat) : string :=
  match n with
  | O => ""
  | S n' => s +:+ str_mul s n'
  end.

(** [needle in hay] for two strings. *)
Fixpoint contains (needle hay : string) : bool :=
  String.prefix needle hay ||
  match hay with
  | EmptyString => false
  | String _ hay' => contains needle hay'
  end.

(** What [response.json()] yields: the Python objects of a decoded JSON
    document.  A [dict] keeps its insertion order. *)
Inductive json :=
  | JNull
  | JBool (b : bool)
  | JInt (n : Z)
  | JFloat (f : spec_float)
  | JStr (s : string)
  | JList (items : list json)
  | JObj (members : list (string * json)).

(** The name Python gives the type of a decoded value in error messages. *)
Definition type_name (v : json) : string :=
  match v with
  | JNull => "NoneType"
  | JBool _ => "bool"
  | JInt _ => "int"
  | JFloat _ => "float"
  | JStr _ => "str"
  | JList _ => "list"
  | JObj _ => "dict"
  end.

(** ** HTTP messages, exceptions, effects *)

Abbreviation params_t := (list (string * string)).

Record Request := {
  req_url : string;
  req_headers : list (string * string);
  req_params : params_t;
}.

(** A response of the upstream: its status and, when the body is a JSON
    document, the decoded payload ([None]: [response.json()] raises). *)
Record Response := {
  status_code : Z;
  json_body : option json;
}.

Inductive exn :=
  | ValueError (msg : string)
  | KeyError (key : string)
  | TypeError (msg : string)
  | AttributeError (msg : string)
  | JSONDecodeError
  | TransportError (msg : string)
  | HTTPStatusError (request : Request) (response : Response).

Inductive level := INFO | ERROR.

(** A log record.  Text built from strings and integers is rendered; where
    the f-string prints a decoded value, the record keeps that value. *)
Inductive log_record :=
  | Text (s : string)
  | TotalItems (v : json)
  | ResponsePreview (payload : json).

Inductive event :=
  | Log (lvl : level) (r : log_record)
  | Get (request : Request).

(** What an invocation runs against: the headers of the incoming request, as
    [get_http_headers()] returns them, and the upstream behind
    [client.get], which answers or fails in transport. *)
Record env := {
  http_headers : gmap string string;
  upstream : Request → exn + Response;
}.

Inductive result (A : Type) :=
  | Return (a : A)
  | Raise (e : exn).
Arguments Return {A} a.
Arguments Raise {A} e.

(** Computations: read the environment, emit a trace, return or raise. *)
Definition M (A : Type) : Type := env → list event * result A.

Definition ret {A} (a : A) : M A := λ _, ([], Return a).

Definition bind {A B} (m : M A) (f : A → M B) : M B :=
  λ e,
    match m e with
    | (t, Return a) => let '(t', r) := f a e in (t ++ t', r)
    | (t, Raise x) => (t, Raise x)
    end.

Definition raise {A} (x : exn) : M A := λ _, ([], Raise x).

(** [try: body  except ...: handler] where [handler] re-raises what it does
    not handle. *)
Definition try_except {A} (body : M A) (handler : exn → M A) : M A :=
  λ e,
    match body e with
    | (t, Return a) => (t, Return a)
    | (t, Raise x) => let '(t', r) := handler x e in (t ++ t', r)
    end.

#[global] Instance M_ret : MRet M := @ret.
#[global] Instance M_bind : MBind M := λ A B f m, bind m f.

Definition logger_info (r : log_record) : M unit := λ _, ([Log INFO r], Return ()).
Definition logger_error (r : log_record) : M unit := λ _, ([Log ERROR r], Return ()).
Definition get_http_headers : M (gmap string string) := λ e, ([], Return (http_headers e)).

(** [await client.get(url, headers=headers, params=params)] on the client of
    [async with httpx.AsyncClient(timeout=30.0)]: the one suspension point
    of an invocation.  A timeout or a connection failure is an exception
    of the upstream. *)
Definition client_get (rq : Request) : M Response :=
  λ e, ([Get rq], match upstream e rq with inl x => Raise x | inr r => Return r end).

Fixpoint for_each {A} (l : list A) (body : A → M unit) : M unit :=
  match l with
  | [] => ret ()
  | a :: l' => body a;; for_each l' body
  end.

Definition trace {A} (r : list event * result A) : list event := r.1.
Definition outcome {A} (r : list event * result A) : result A := r.2.

(** The requests sent to the upstream, in order. *)
Definition requests (t : list event) : list Request :=
  omap (λ ev, match ev with Get rq => Some rq | Log _ _ => None end) t.

(** ** Library operations the code calls *)

(** [Response.is_success] of httpx: a 2xx status. *)
Definition is_success (r : Response) : bool :=
  bool_decide (200 ≤ status_code r ≤ 299).

(** [response.raise_for_status()]. *)
Definition raise_for_status (rq : Request) (r : Response) : M unit :=
  if is_success r then ret () else raise (HTTPStatusError rq r).

(** [response.json()]. *)
Definition response_json (r : Response) : M json :=
  match json_body r with
  | Some v => ret v
  | None => raise JSONDecodeError
  end.

(** The value stored under [key] in a decoded [dict], if any. *)
Fixpoint dict_lookup (members : list (string * json)) (key : string) : option json :=
  match members with
  | [] => None
  | (k, v) :: rest => if decide (k = key) then Some v else dict_lookup rest key
  end.

(** [d.get(key, default)]: a method of [dict] only. *)
Definition py_get (d : json) (key : string) (default : json) : M json :=
  match d with
  | JObj members => ret (from_option id default (dict_lookup members key))
  | _ => raise (AttributeError ("'" +:+ type_name d +:+ "' object has no attribute 'get'"))
  end.

(** The code points of a string held as UTF-8 bytes: every byte that is not
    a continuation byte (0x80 to 0xBF) starts one. *)
Definition is_continuation_byte (a : Ascii.ascii) : bool :=
  (128 <=? Ascii.N_of_ascii a)%N && (Ascii.N_of_ascii a <? 192)%N.

Fixpoint code_points (s : string) : nat :=
  match s with
  | EmptyString => 0%nat
  | String a s' => ((if is_continuation_byte a then 0 else 1) + code_points s')%nat
  end.

(** [len(x)]: defined for strings (the number of code points), lists and
    dicts. *)
Definition py_len (x : json) : M Z :=
  match x with
  | JStr s => ret (Z.of_nat (code_points s))
  | JList items => ret (Z.of_nat (length items))
  | JObj members => ret (Z.of_nat (length members))
  | _ => raise (TypeError ("object of type '" +:+ type_name x +:+ "' has no len()"))
  end.

(** The values [len] accepts. *)
Definition has_len (x : json) : bool :=
  match x with
  | JStr _ | JList _ | JObj _ => true
  | _ => false
  end.

(** ** [_search_melo_properties] *)

Definition MELO_API_BASE_URL : string := "https://api.notif.immo".

(** [if field is not None: params.append((key, str(field)))]. *)
Definition append_if_set (key : string) (field : option Z) (params : params_t) : params_t :=
  match field with
  | Some v => params ++ [(key, str v)]
  | None => params
  end.

(** [if included_zipcodes: for zipcode in included_zipcodes: params.append(...)].
    [None] and the empty list are both false. *)
Definition append_zipcodes (included_zipcodes : option (list string)) (params : params_t)
    : params_t :=
  match included_zipcodes with
  | Some ((_ :: _) as zipcodes) =>
      foldl (λ params zipcode, params ++ [("includedZipcodes[]", zipcode)]) params zipcodes
  | _ => params
  end.

(** [if order_by:] and its [if]/[elif] chain.  [None] and the empty string
    are both false. *)
Definition append_order (order_by : option string) (params : params_t) : params_t :=
  match order_by with
  | Some order_by =>
      if decide (order_by = "") then params
      else if decide (order_by = "pricePerMeter") then params ++ [("order[pricePerMeter]", "asc")]
      else if decide (order_by = "price") then params ++ [("order[price]", "asc")]
      else if decide (order_by = "updatedAt") then params ++ [("order[updatedAt]", "desc")]
      else params
  | None => params
  end.

(** The query parameters, in the order the code appends them (lines 75 to
    111 of [_search_melo_properties]). *)
Definition build_params
    (property_type transaction_type : option Z)
    (budget_min budget_max surface_min surface_max : option Z)
    (price_per_meter_min price_per_meter_max bedroom_min : option Z)
    (included_zipcodes : option (list string)) (order_by : option string)
    (items_per_page page : Z) : params_t :=
  let params := [] in
  let params := append_if_set "propertyTypes[]" property_type params in
  let params := append_if_set "transactionType" transaction_type params in
  let params := append_if_set "budgetMin" budget_min params in
  let params := append_if_set "budgetMax" budget_max params in
  let params := append_if_set "surfaceMin" surface_min params in
  let params := append_if_set "surfaceMax" surface_max params in
  let params := append_if_set "pricePerMeterMin" price_per_meter_min params in
  let params := append_if_set "pricePerMeterMax" price_per_meter_max params in
  let params := append_if_set "bedroomMin" bedroom_min params in
  let params := append_zipcodes included_zipcodes params in
  let params := append_order order_by params in
  let params := params ++ [("itemsPerPage", str items_per_page)] in
  let params := params ++ [("page", str page)] in
  let params := params ++ [("withCoherentPrice", "true")] in
  params.

Definition melo_url : string := MELO_API_BASE_URL +:+ "/documents/properties".

(** The request [client.get] receives for credential [api_key] and query
    [params]. *)
Definition melo_request (api_key : string) (params : params_t) : Request :=
  {| req_url := melo_url;
     req_headers := [("Content-Type", "application/json"); ("X-API-KEY", api_key)];
     req_params := params |}.

Definition invalid_key_message : string :=
  "Invalid Melo API key. Please check your credentials.".

(** The log records written before the call: the endpoint and every
    query pair (lines 119 to 124). *)
Definition log_request (url : string) (params : params_t) : M unit :=
  logger_info (Text (str_mul "=" 80));;
  logger_info (Text "🔍 Melo API Request");;
  logger_info (Text ("URL: " +:+ url));;
  logger_info (Text "Parameters:");;
  for_each params (λ kv, logger_info (Text ("  " +:+ kv.1 +:+ ": " +:+ kv.2))).

(** The [try]/[except] block around the call (lines 127 to 150): one GET,
    the status check, the decoding, the log records of the response, and
    the handler of [httpx.HTTPStatusError]. *)
Definition fetch (request : Request) : M json :=
  try_except
    (response ← client_get request;
     raise_for_status request response;;
     response_data ← response_json response;
     logger_info (Text (str_mul "-" 80));;
     logger_info (Text "✅ Melo API Response");;
     logger_info (Text ("Status Code: " +:+ str (status_code response)));;
     total_items ← py_get response_data "hydra:totalItems" (JStr "N/A");
     logger_info (TotalItems total_items);;
     member ← py_get response_data "hydra:member" (JList []);
     returned ← py_len member;
     logger_info (Text ("Properties Returned: " +:+ str returned));;
     logger_info (ResponsePreview response_data);;
     logger_info (Text (str_mul "=" 80));;
     ret response_data)
    (λ e,
       match e with
       | HTTPStatusError _ response =>
           if decide (status_code response = 401 ∨ status_code response = 403) then
             logger_error (Text "❌ Invalid Melo API key");;
             raise (ValueError invalid_key_message)
           else raise e
       | _ => raise e
       end).

(** The function takes [items_per_page] and [page] from its caller; its own
    defaults (10 and 1) are not used by [search_properties], which passes
    both. *)
Definition _search_melo_properties
    (api_key : string)
    (property_type transaction_type : option Z)
    (budget_min budget_max surface_min surface_max : option Z)
    (price_per_meter_min price_per_meter_max bedroom_min : option Z)
    (included_zipcodes : option (list string)) (order_by : option string)
    (items_per_page page : Z) : M json :=
  let url := melo_url in
  let params :=
    build_params property_type transaction_type budget_min budget_max
      surface_min surface_max price_per_meter_min price_per_meter_max
      bedroom_min included_zipcodes order_by items_per_page page in
  let request := melo_request api_key params in
  log_request url params;;
  fetch request.

(** ** The tool [search_properties] *)

(** The arguments of one call of the tool, as the caller supplies them:
    [None] is an argument left out. *)
Record ToolCall := {
  arg_property_type : option string;
  arg_transaction_type : option string;
  arg_budget_min : option Z;
  arg_budget_max : option Z;
  arg_surface_min : option Z;
  arg_surface_max : option Z;
  arg_price_per_meter_min : option Z;
  arg_price_per_meter_max : option Z;
  arg_bedroom_min : option Z;
  arg_zip_codes : option (list string);
  arg_order_by : option string;
  arg_items_per_page : option Z;
  arg_page : option Z;
}.

(** The parameters the body of [search_properties] runs with. *)
Record SearchCriteria := {
  property_type : string;
  transaction_type : string;
  budget_min : option Z;
  budget_max : option Z;
  surface_min : option Z;
  surface_max : option Z;
  price_per_meter_min : option Z;
  price_per_meter_max : option Z;
  bedroom_min : option Z;
  zip_codes : option (list string);
  order_by : option string;
  items_per_page : Z;
  page : Z;
}.

(** The [default=] of each [Field] of the signature. *)
Definition apply_defaults (a : ToolCall) : SearchCriteria :=
  {| property_type := default "apartment" (arg_property_type a);
     transaction_type := default "sell" (arg_transaction_type a);
     budget_min := arg_budget_min a;
     budget_max := arg_budget_max a;
     surface_min := arg_surface_min a;
     surface_max := arg_surface_max a;
     price_per_meter_min := arg_price_per_meter_min a;
     price_per_meter_max := arg_price_per_meter_max a;
     bedroom_min := arg_bedroom_min a;
     zip_codes := arg_zip_codes a;
     order_by := arg_order_by a;
     items_per_page := default 5 (arg_items_per_page a);
     page := default 1 (arg_page a) |}.

(** What the signature accepts: the [Literal] types and the [ge]/[le]
    bounds of its [Field]s. *)
Definition valid (c : SearchCriteria) : Prop :=
  property_type c ∈ ["apartment"; "house"] ∧
  transaction_type c ∈ ["sell"; "rent"] ∧
  order_by c ∈ [None; Some "pricePerMeter"; Some "price"; Some "updatedAt"] ∧
  1 ≤ items_per_page c ≤ 10 ∧
  1 ≤ page c.

#[global] Instance valid_dec c : Decision (valid c).
Proof. unfold valid. apply _. Defined.

Definition property_type_map : gmap string Z := {[ "apartment" := 0; "house" := 1 ]}.
Definition transaction_type_map : gmap string Z := {[ "sell" := 0; "rent" := 1 ]}.

(** [d[key]] on a dictionary. *)
Definition subscript (d : gmap string Z) (key : string) : M Z :=
  match d !! key with
  | Some v => ret v
  | None => raise (KeyError key)
  end.

Definition missing_key_message : string :=
  "Missing X-API-KEY header. Please provide your Melo API key.".

Definition search_properties (c : SearchCriteria) : M json :=
  headers ← get_http_headers;
  let api_key := headers !! "x-api-key" in
  match api_key with
  | Some api_key =>
      if decide (api_key = "") then
        logger_error (Text "❌ Missing X-API-KEY header");;
        raise (ValueError missing_key_message)
      else
        logger_info (Text "🔑 Using API key from request headers");;
        property_type ← subscript property_type_map (property_type c);
        transaction_type ← subscript transaction_type_map (transaction_type c);
        _search_melo_properties api_key
          (Some property_type) (Some transaction_type)
          (budget_min c) (budget_max c) (surface_min c) (surface_max c)
          (price_per_meter_min c) (price_per_meter_max c) (bedroom_min c)
          (zip_codes c) (order_by c) (items_per_page c) (page c)
  | None =>
      logger_error (Text "❌ Missing X-API-KEY header");;
      raise (ValueError missing_key_message)
  end.

(** ** The query of a call

    The query [search_properties] hands to the upstream for criteria [c]:
    the two label lookups followed by [build_params].  It raises what the
    lookups raise. *)
Definition translate (c : SearchCriteria) : result params_t :=
  match property_type_map !! property_type c with
  | None => Raise (KeyError (property_type c))
  | Some ptype =>
      match transaction_type_map !! transaction_type c with
      | None => Raise (KeyError (transaction_type c))
      | Some ttype =>
          Return (build_params (Some ptype) (Some ttype)
                    (budget_min c) (budget_max c) (surface_min c) (surface_max c)
                    (price_per_meter_min c) (price_per_meter_max c) (bedroom_min c)
                    (zip_codes c) (order_by c) (items_per_page c) (page c))
      end
  end.

(** The values a query carries under [key], in order. *)
Definition values_of (key : string) (q : params_t) : list string :=
  snd <$> filter (λ kv, kv.1 = key) q.

(** The sort pairs of a query: those whose key is [order[...]]. *)
Definition sort_pairs (q : params_t) : params_t :=
  filter (λ kv, String.prefix "order[" kv.1 = true) q.

(** The optional numeric fields and the key each is sent under. *)
Inductive range_field :=
  | BudgetMin | BudgetMax | SurfaceMin | SurfaceMax
  | PricePerMeterMin | PricePerMeterMax | BedroomMin.

Definition range_key (f : range_field) : string :=
  match f with
  | BudgetMin => "budgetMin"
  | BudgetMax => "budgetMax"
  | SurfaceMin => "surfaceMin"
  | SurfaceMax => "surfaceMax"
  | PricePerMeterMin => "pricePerMeterMin"
  | PricePerMeterMax => "pricePerMeterMax"
  | BedroomMin => "bedroomMin"
  end.

Definition range_value (f : range_field) (c : SearchCriteria) : option Z :=
  match f with
  | BudgetMin => budget_min c
  | BudgetMax => budget_max c
  | SurfaceMin => surface_min c
  | SurfaceMax => surface_max c
  | PricePerMeterMin => price_per_meter_min c
  | PricePerMeterMax => price_per_meter_max c
  | BedroomMin => bedroom_min c
  end.

(** A call that supplies no argument. *)
Definition no_arguments : ToolCall :=
  {| arg_property_type := None; arg_transaction_type := None;
     arg_budget_min := None; arg_budget_max := None;
     arg_surface_min := None; arg_surface_max := None;
     arg_price_per_meter_min := None; arg_price_per_meter_max := None;
     arg_bedroom_min := None; arg_zip_codes := None; arg_order_by := None;
     arg_items_per_page := None; arg_page := None |}.

(** The call of the docstring: houses for rent under 2000 euros. *)
Definition house_rent_2000 : ToolCall :=
  {| arg_property_type := Some "house"; arg_transaction_type := Some "rent";
     arg_budget_min := None; arg_budget_max := Some 2000;
     arg_surface_min := None; arg_surface_max := None;
     arg_price_per_meter_min := None; arg_price_per_meter_max := None;
     arg_bedroom_min := None; arg_zip_codes := None; arg_order_by := None;
     arg_items_per_page := None; arg_page := None |}.

(** [c] with another list of zip codes. *)
Definition with_zip_codes (zips : option (list string)) (c : SearchCriteria) : SearchCriteria :=
  {| property_type := property_type c;
     transaction_type := transaction_type c;
     budget_min := budget_min c;
     budget_max := budget_max c;
     surface_min := surface_min c;
     surface_max := surface_max c;
     price_per_meter_min := price_per_meter_min c;
     price_per_meter_max := price_per_meter_max c;
     bedroom_min := bedroom_min c;
     zip_codes := zips;
     order_by := order_by c;
     items_per_page := items_per_page c;
     page := page c |}.

(** The call of the docstring: apartments to buy in Paris with two
    bedrooms or more. *)
Definition paris_apartments : ToolCall :=
  {| arg_property_type := Some "apartment"; arg_transaction_type := Some "sell";
     arg_budget_min := None; arg_budget_max := None;
     arg_surface_min := None; arg_surface_max := None;
     arg_price_per_meter_min := None; arg_price_per_meter_max := None;
     arg_bedroom_min := Some 2; arg_zip_codes := Some ["75001"; "75002"];
     arg_order_by := Some "updatedAt";
     arg_items_per_page := None; arg_page := None |}.

(** The query of that call. *)
Definition house_rent_query : params_t :=
  [("propertyTypes[]", "1"); ("transactionType", "1"); ("budgetMax", "2000");
   ("itemsPerPage", "5"); ("page", "1"); ("withCoherentPrice", "true")].

(** An invocation carrying [api_key], against an upstream that answers
    [response] to every request. *)
Definition env_answering (api_key : string) (response : Response) : env :=
  {| http_headers := {[ "x-api-key" := api_key ]};
     upstream := λ _, inr response |}.

(** An invocation without credential header. *)
Definition env_without_key : env :=
  {| http_headers := {[ "content-type" := "application/json" ]};
     upstream := λ _, inl (TransportError "connection refused") |}.

Definition unauthorized : Response := {| status_code := 401; json_body := None |}.
Definition server_error : Response := {| status_code := 500; json_body := None |}.

(** A 200 answer whose list of members is [null]. *)
Definition null_member_payload : json :=
  JObj [("hydra:totalItems", JInt 0); ("hydra:member", JNull)].
Definition ok_null_member : Response :=
  {| status_code := 200; json_body := Some null_member_payload |}.

(** A 200 answer with three members. *)
Definition three_items_payload : json :=
  JObj [("hydra:totalItems", JInt 3);
        ("hydra:member", JList [JObj []; JObj []; JObj []])].
Definition ok_three_items : Response :=
  {| status_code := 200; json_body := Some three_items_payload |}.

(** The log records of a trace, in order. *)
Definition logs (t : list event) : list (level * log_record) :=
  omap (λ ev, match ev with Log lvl r => Some (lvl, r) | Get _ => None end) t.

(** What [log_request] writes for a URL and a query. *)
Definition request_log (url : string) (params : params_t) : list event :=
  [Log INFO (Text (str_mul "=" 80));
   Log INFO (Text "🔍 Melo API Request");
   Log INFO (Text ("URL: " +:+ url));
   Log INFO (Text "Parameters:")]
  ++ ((λ kv, Log INFO (Text ("  " +:+ kv.1 +:+ ": " +:+ kv.2))) <$> params).

(** The key names [_search_melo_properties] writes into a query. *)
Definition upstream_keys : list string :=
  ["propertyTypes[]"; "transactionType"; "budgetMin"; "budgetMax";
   "surfaceMin"; "surfaceMax"; "pricePerMeterMin"; "pricePerMeterMax";
   "bedroomMin"; "includedZipcodes[]";
   "order[pricePerMeter]"; "order[price]"; "order[updatedAt]";
   "itemsPerPage"; "page"; "withCoherentPrice"].

(** The number of pairs a field contributes. *)
Definition set_count (field : option Z) : nat :=
  match field with Some _ => 1%nat | None => 0%nat end.

(** An invocation whose credential header is present and empty. *)
Definition env_empty_key : env :=
  {| http_headers := {[ "x-api-key" := "" ]};
     upstream := λ _, inr ok_three_items |}.

(** An invocation carrying [api_key], against an upstream that cannot be
    reached. *)
Definition env_unreachable (api_key : string) : env :=
  {| http_headers := {[ "x-api-key" := api_key ]};
     upstream := λ _, inl (TransportError "timed out") |}.

(** A 200 answer whose body is not JSON. *)
Definition ok_not_json : Response := {| status_code := 200; json_body := None |}.

(** A 200 answer whose body is a JSON array. *)
Definition ok_array : Response := {| status_code := 200; json_body := Some (JList []) |}.

(** Criteria with a label the dictionaries do not hold. *)
Definition castle_criteria : SearchCriteria :=
  {| property_type := "castle"; transaction_type := "lease";
     budget_min := None; budget_max := None; surface_min := None; surface_max := None;
     price_per_meter_min := None; price_per_meter_max := None; bedroom_min := None;
     zip_codes := None; order_by := None; items_per_page := 5; page := 1 |}.

(** The number of pairs [order_by] contributes. *)
Definition order_count (order_by : option string) : nat :=
  if bool_decide (order_by ∈ [Some "pricePerMeter"; Some "price"; Some "updatedAt"])
  then 1%nat else 0%nat.

(** [c] with an absent list of zip codes read as the empty list. *)
Definition normalize_zip_codes (c : SearchCriteria) : SearchCriteria :=
  with_zip_codes (Some (default [] (zip_codes c))) c.

(** * Properties *)

(** ** The shape of a query *)

Lemma append_if_set_app key field params :
  append_if_set key field params = params ++ append_if_set key field [].
Proof. destruct field; simpl; by rewrite ?app_nil_r. Qed.

Lemma foldl_append_zipcodes (zipcodes : list string) (params : params_t) :
  foldl (λ params zipcode, params ++ [("includedZipcodes[]", zipcode)]) params zipcodes
  = params ++ (pair "includedZipcodes[]" <$> zipcodes).
Proof.
  revert params. induction zipcodes as [|z zs IH]; intros params; simpl.
  - by rewrite app_nil_r.
  - rewrite IH, <-app_assoc. done.
Qed.

(** The zip-code pairs of a query, whether the list is absent, empty or not. *)
Lemma append_zipcodes_app included_zipcodes params :
  append_zipcodes included_zipcodes params
  = params ++ (pair "includedZipcodes[]" <$> default [] included_zipcodes).
Proof.
  destruct included_zipcodes as [[|z zs]|]; unfold append_zipcodes.
  - by rewrite app_nil_r.
  - exact (foldl_append_zipcodes (z :: zs) params).
  - by rewrite app_nil_r.
Qed.

Lemma append_order_app order_by params :
  append_order order_by params = params ++ append_order order_by [].
Proof.
  destruct order_by as [s|]; simpl; [|by rewrite app_nil_r].
  repeat case_decide; by rewrite ?app_nil_r.
Qed.

(** [build_params] as one concatenation, field by field. *)
Lemma build_params_eq pt tt bmin bmax smin smax pmin pmax bed zips ob ipp pg :
  build_params pt tt bmin bmax smin smax pmin pmax bed zips ob ipp pg
  = append_if_set "propertyTypes[]" pt []
    ++ append_if_set "transactionType" tt []
    ++ append_if_set "budgetMin" bmin []
    ++ append_if_set "budgetMax" bmax []
    ++ append_if_set "surfaceMin" smin []
    ++ append_if_set "surfaceMax" smax []
    ++ append_if_set "pricePerMeterMin" pmin []
    ++ append_if_set "pricePerMeterMax" pmax []
    ++ append_if_set "bedroomMin" bed []
    ++ (pair "includedZipcodes[]" <$> default [] zips)
    ++ append_order ob []
    ++ [("itemsPerPage", str ipp); ("page", str pg); ("withCoherentPrice", "true")].
Proof.
  unfold build_params; cbv zeta.
  rewrite (append_order_app ob), (append_zipcodes_app zips).
  rewrite (append_if_set_app "bedroomMin"), (append_if_set_app "pricePerMeterMax"),
    (append_if_set_app "pricePerMeterMin"), (append_if_set_app "surfaceMax"),
    (append_if_set_app "surfaceMin"), (append_if_set_app "budgetMax"),
    (append_if_set_app "budgetMin"), (append_if_set_app "transactionType").
  rewrite <-!app_assoc. done.
Qed.

(** ** Reading a query by key *)

Lemma values_of_app key (q1 q2 : params_t) :
  values_of key (q1 ++ q2) = values_of key q1 ++ values_of key q2.
Proof. unfold values_of. by rewrite filter_app, fmap_app. Qed.

Lemma values_of_cons key k v (q : params_t) :
  values_of key ((k, v) :: q)
  = if decide (k = key) then v :: values_of key q else values_of key q.
Proof. unfold values_of. rewrite filter_cons. simpl. by case_decide. Qed.

Lemma values_of_append_if_set key k field :
  values_of key (append_if_set k field [])
  = if decide (k = key) then str <$> option_list field else [].
Proof.
  destruct field as [v|]; simpl; [|by case_decide].
  rewrite values_of_cons. by case_decide.
Qed.

Lemma values_of_zipcodes key (zipcodes : list string) :
  values_of key (pair "includedZipcodes[]" <$> zipcodes)
  = if decide ("includedZipcodes[]" = key) then zipcodes else [].
Proof.
  induction zipcodes as [|z zs IH]; [by case_decide|].
  rewrite fmap_cons, values_of_cons, IH. by case_decide.
Qed.

Lemma values_of_append_order key order_by :
  String.prefix "order[" key = false →
  values_of key (append_order order_by []) = [].
Proof.
  intros Hkey. destruct order_by as [s|]; simpl; [|done].
  repeat case_decide; try done;
    rewrite values_of_cons; case_decide; try done; subst key; discriminate.
Qed.

Lemma sort_pairs_app (q1 q2 : params_t) :
  sort_pairs (q1 ++ q2) = sort_pairs q1 ++ sort_pairs q2.
Proof. apply filter_app. Qed.

Lemma sort_pairs_append_if_set k field :
  String.prefix "order[" k = false → sort_pairs (append_if_set k field []) = [].
Proof.
  intros Hk. destruct field as [v|]; [|done].
  unfold sort_pairs; simpl. rewrite filter_cons; simpl. by rewrite decide_False by congruence.
Qed.

Lemma sort_pairs_zipcodes (zipcodes : list string) :
  sort_pairs (pair "includedZipcodes[]" <$> zipcodes) = [].
Proof.
  induction zipcodes as [|z zs IH]; [done|].
  rewrite fmap_cons. unfold sort_pairs in *. by rewrite filter_cons.
Qed.

Lemma sort_pairs_append_order order_by :
  sort_pairs (append_order order_by []) = append_order order_by [].
Proof. destruct order_by as [s|]; simpl; [|done]. by repeat case_decide. Qed.

(** The sort pairs of a query are those its [order_by] appends. *)
Lemma sort_pairs_build_params pt tt bmin bmax smin smax pmin pmax bed zips ob ipp pg :
  sort_pairs (build_params pt tt bmin bmax smin smax pmin pmax bed zips ob ipp pg)
  = append_order ob [].
Proof.
  rewrite build_params_eq, !sort_pairs_app, !sort_pairs_append_if_set by done.
  rewrite sort_pairs_zipcodes, sort_pairs_append_order. simpl.
  by rewrite app_nil_r.
Qed.

Ltac read_query :=
  rewrite build_params_eq;
  rewrite ?values_of_app, ?values_of_append_if_set, ?values_of_zipcodes,
    ?values_of_append_order, ?values_of_cons by done;
  simpl; rewrite ?app_nil_r.

(** ** The label lookups *)

Lemma property_type_map_lookup label :
  property_type_map !! label
  = if decide (label = "apartment") then Some 0
    else if decide (label = "house") then Some 1 else None.
Proof.
  unfold property_type_map. repeat case_decide; subst; try done.
  by rewrite lookup_insert_ne, lookup_singleton_ne by done.
Qed.

Lemma transaction_type_map_lookup label :
  transaction_type_map !! label
  = if decide (label = "sell") then Some 0
    else if decide (label = "rent") then Some 1 else None.
Proof.
  unfold transaction_type_map. repeat case_decide; subst; try done.
  by rewrite lookup_insert_ne, lookup_singleton_ne by done.
Qed.

Lemma translate_Return_inv c q :
  translate c = Return q →
  ∃ ptype ttype,
    property_type_map !! property_type c = Some ptype ∧
    transaction_type_map !! transaction_type c = Some ttype ∧
    q = build_params (Some ptype) (Some ttype)
          (budget_min c) (budget_max c) (surface_min c) (surface_max c)
          (price_per_meter_min c) (price_per_meter_max c) (bedroom_min c)
          (zip_codes c) (order_by c) (items_per_page c) (page c).
Proof.
  unfold translate. intros H.
  destruct (property_type_map !! property_type c) as [ptype|]; [|done].
  destruct (transaction_type_map !! transaction_type c) as [ttype|]; [|done].
  exists ptype, ttype. by injection H as <-.
Qed.

(** The signature's [Literal] labels are keys of the two dictionaries, so
    the lookups of a valid call do not raise. *)
Lemma translate_valid c : valid c → ∃ q, translate c = Return q.
Proof.
  intros (Hp & Ht & _). unfold translate.
  rewrite property_type_map_lookup, transaction_type_map_lookup.
  set_unfold. destruct Hp as [->|[->|[]]], Ht as [->|[->|[]]]; simpl; eauto.
Qed.

(** ** Running the effects *)

Lemma for_each_logger_info {A} (l : list A) (g : A → log_record) e :
  for_each l (λ a, logger_info (g a)) e = ((λ a, Log INFO (g a)) <$> l, Return ()).
Proof.
  induction l as [|a l IH]; [done|].
  simpl. unfold mbind, M_bind, bind. simpl. by rewrite IH.
Qed.

Lemma requests_app (t1 t2 : list event) :
  requests (t1 ++ t2) = requests t1 ++ requests t2.
Proof. apply omap_app. Qed.

Lemma requests_logs {A} (l : list A) (g : A → log_record) :
  requests ((λ a, Log INFO (g a)) <$> l) = [].
Proof. induction l; [done|]. by rewrite fmap_cons. Qed.

Ltac run_effects :=
  unfold try_except, mbind, M_bind, bind, client_get, raise_for_status,
    response_json, logger_info, logger_error, get_http_headers, subscript,
    raise, ret, trace, outcome; simpl.

(** The records written before the call never fail and send nothing. *)
Lemma log_request_run url params e :
  ∃ t, log_request url params e = (t, Return ()) ∧ requests t = [].
Proof.
  unfold log_request. unfold mbind at 1 2 3 4. unfold M_bind, bind; simpl.
  rewrite for_each_logger_info. eexists; split; [done|].
  simpl. apply requests_logs.
Qed.

(** An answer with status 401 or 403: the handler logs and raises
    [ValueError] with the fixed message. *)
Lemma fetch_unauthorized rq e resp :
  upstream e rq = inr resp →
  status_code resp = 401 ∨ status_code resp = 403 →
  fetch rq e
  = ([Get rq; Log ERROR (Text "❌ Invalid Melo API key")],
     Raise (ValueError invalid_key_message)).
Proof.
  intros Hup Hst. unfold fetch. run_effects. rewrite Hup; simpl.
  assert (is_success resp = false) as ->.
  { apply bool_decide_eq_false. lia. }
  simpl. by rewrite decide_True.
Qed.

(** Any other status outside 2xx: the [HTTPStatusError] of
    [raise_for_status] is raised again as it is. *)
Lemma fetch_status_error rq e resp :
  upstream e rq = inr resp →
  is_success resp = false →
  status_code resp ≠ 401 → status_code resp ≠ 403 →
  fetch rq e = ([Get rq], Raise (HTTPStatusError rq resp)).
Proof.
  intros Hup Hok H401 H403. unfold fetch. run_effects. rewrite Hup; simpl.
  rewrite Hok; simpl. by rewrite decide_False by tauto.
Qed.

(** A 2xx answer whose payload is a [dict] and whose [hydra:member], when
    present, has a length: the payload is returned as decoded. *)
Lemma fetch_success rq e resp members :
  upstream e rq = inr resp →
  is_success resp = true →
  json_body resp = Some (JObj members) →
  has_len (default (JList []) (dict_lookup members "hydra:member")) = true →
  outcome (fetch rq e) = Return (JObj members).
Proof.
  intros Hup Hok Hbody Hlen. unfold fetch. run_effects. rewrite Hup; simpl.
  rewrite Hok; simpl. rewrite Hbody; simpl.
  unfold py_get; run_effects.
  destruct (dict_lookup members "hydra:member") as [[]|]; by simplify_eq/=.
Qed.

(** Whatever the upstream answers, the block issues its one GET and no
    other. *)
Lemma requests_fetch rq e : requests (trace (fetch rq e)) = [rq].
Proof.
  unfold fetch. run_effects.
  destruct (upstream e rq) as [x|resp]; simpl.
  - destruct x; simpl; try done. by case_decide.
  - destruct (is_success resp); simpl; [|by case_decide].
    destruct (json_body resp) as [payload|]; simpl; [|done].
    unfold py_get, py_len; run_effects.
    destruct payload as [| | | | | |members]; simpl; try done.
    destruct (dict_lookup members "hydra:member") as [[]|]; done.
Qed.

(** With a credential in the headers and labels the dictionaries know, the
    tool logs, then runs the block on the request made of the credential
    and the translated query. *)
Lemma search_properties_run c e api_key q :
  http_headers e !! "x-api-key" = Some api_key → api_key ≠ "" →
  translate c = Return q →
  ∃ t, requests t = [] ∧
    search_properties c e
    = (t ++ trace (fetch (melo_request api_key q) e),
       outcome (fetch (melo_request api_key q) e)).
Proof.
  intros Hkey Hne Hq.
  destruct (translate_Return_inv _ _ Hq) as (ptype & ttype & Hp & Ht & ->).
  unfold search_properties. run_effects. rewrite Hkey, decide_False by done.
  rewrite Hp, Ht; simpl. unfold _search_melo_properties. run_effects.
  match goal with |- context [log_request ?u ?p e] =>
    destruct (log_request_run u p e) as (t & -> & Ht') end.
  destruct (fetch _ e) as [t' r]; simpl.
  exists (Log INFO (Text "🔑 Using API key from request headers") :: t).
  by split.
Qed.

(** Labels outside the dictionaries: the lookup raises before anything is
    sent. *)
Lemma search_properties_KeyError c e api_key x :
  http_headers e !! "x-api-key" = Some api_key → api_key ≠ "" →
  translate c = Raise x →
  outcome (search_properties c e) = Raise x ∧
  requests (trace (search_properties c e)) = [].
Proof.
  intros Hkey Hne. unfold translate, search_properties. run_effects.
  rewrite Hkey, decide_False by done.
  destruct (property_type_map !! property_type c); simpl;
    [|by intros [= <-]].
  destruct (transaction_type_map !! transaction_type c); simpl; [done|].
  by intros [= <-].
Qed.

(** The query of the one request a call with a credential sends. *)
Lemma search_properties_sends c e api_key q :
  http_headers e !! "x-api-key" = Some api_key → api_key ≠ "" →
  translate c = Return q →
  requests (trace (search_properties c e)) = [melo_request api_key q].
Proof.
  intros Hkey Hne Hq.
  destruct (search_properties_run c e api_key q) as (t & Ht & ->); [done..|].
  unfold trace at 1; simpl. by rewrite requests_app, Ht, requests_fetch.
Qed.

(** A pair is in a query exactly when its value is among those read under
    its key. *)
Lemma elem_of_values_of key v (q : params_t) :
  v ∈ values_of key q ↔ (key, v) ∈ q.
Proof.
  unfold values_of. rewrite list_elem_of_fmap. split.
  - intros ([k v'] & -> & Hin). apply list_elem_of_filter in Hin as [Hk Hin].
    simpl in *. by subst.
  - intros Hin. exists (key, v). split; [done|]. by apply list_elem_of_filter.
Qed.

Lemma filter_key_values_of key (q : params_t) :
  filter (λ kv, kv.1 = key) q = pair key <$> values_of key q.
Proof.
  unfold values_of. induction q as [|[k v] q IH]; [done|].
  rewrite filter_cons; simpl. case_decide as Hk; simpl in Hk.
  - subst k. rewrite !fmap_cons. simpl. by f_equal.
  - done.
Qed.

Lemma valid_house_rent_2000 : valid (apply_defaults house_rent_2000).
Proof. by apply (bool_decide_unpack _). Qed.

Lemma valid_paris_apartments : valid (apply_defaults paris_apartments).
Proof. by apply (bool_decide_unpack _). Qed.

(** ** The claims *)

(** C1. The criteria [{propertyType: "house", transactionType: "rent",
    budgetMax: 2000}], every other field left out, translate to exactly the
    six pairs [propertyTypes[]=1], [transactionType=1], [budgetMax=2000],
    [itemsPerPage=5], [page=1], [withCoherentPrice=true]; the query has no
    pair under any other range key, and it is the query of the request
    the tool sends. *)
Theorem house_rent_scenario :
  ∃ q,
    translate (apply_defaults house_rent_2000) = Return q ∧
    q = [("propertyTypes[]", "1"); ("transactionType", "1"); ("budgetMax", "2000");
         ("itemsPerPage", "5"); ("page", "1"); ("withCoherentPrice", "true")] ∧
    (∀ f, f ≠ BudgetMax → values_of (range_key f) q = []) ∧
    (∀ e api_key,
       http_headers e !! "x-api-key" = Some api_key → api_key ≠ "" →
       req_params <$> requests (trace (search_properties (apply_defaults house_rent_2000) e))
       = [q]).
Proof.
  assert (translate (apply_defaults house_rent_2000)
          = Return [("propertyTypes[]", "1"); ("transactionType", "1");
                    ("budgetMax", "2000"); ("itemsPerPage", "5"); ("page", "1");
                    ("withCoherentPrice", "true")]) as Hq by (by vm_compute).
  eexists. split; [exact Hq|]. split; [done|]. split.
  - intros f Hf. destruct f; done.
  - intros e api_key Hkey Hne.
    by rewrite (search_properties_sends _ e api_key _ Hkey Hne Hq).
Qed.

(** What a query carries under the key of an optional numeric field: the
    rendered field when it is set, nothing otherwise. *)
Lemma values_of_range_key f c q :
  translate c = Return q →
  values_of (range_key f) q = str <$> option_list (range_value f c).
Proof.
  intros Hq. destruct (translate_Return_inv _ _ Hq) as (ptype & ttype & _ & _ & ->).
  destruct f; read_query; done.
Qed.

(** C2. On every valid criteria the translation raises nothing; the query
    is a function of the criteria alone: whatever the headers and the
    upstream of a run, the request sent carries that same query; and for
    each optional numeric field, the query has a pair under the field's key
    if and only if the field is set, the pair then carrying the field's
    value and no other pair standing under that key. *)
Theorem translate_total_deterministic_optional c :
  valid c →
  ∃ q,
    translate c = Return q ∧
    (∀ e api_key,
       http_headers e !! "x-api-key" = Some api_key → api_key ≠ "" →
       req_params <$> requests (trace (search_properties c e)) = [q]) ∧
    (∀ f,
       (is_Some (range_value f c) ↔ ∃ v, (range_key f, v) ∈ q) ∧
       (∀ n, range_value f c = Some n → values_of (range_key f) q = [str n]) ∧
       (range_value f c = None → values_of (range_key f) q = [])).
Proof.
  intros Hvalid. destruct (translate_valid c Hvalid) as [q Hq].
  exists q. split; [done|]. split.
  - intros e api_key Hkey Hne.
    by rewrite (search_properties_sends _ e api_key _ Hkey Hne Hq).
  - intros f. pose proof (values_of_range_key f c q Hq) as Hf.
    split; [|split].
    + split.
      * intros [n Hn]. exists (str n). apply elem_of_values_of.
        rewrite Hf, Hn. simpl. set_solver.
      * intros [v Hv]. apply elem_of_values_of in Hv. rewrite Hf in Hv.
        destruct (range_value f c); [done|]. simpl in Hv. set_solver.
    + intros n Hn. by rewrite Hf, Hn.
    + intros Hn. by rewrite Hf, Hn.
Qed.

Lemma translate_total_deterministic_optional_witness :
  valid (apply_defaults house_rent_2000) ∧
  ∃ q,
    translate (apply_defaults house_rent_2000) = Return q ∧
    (∀ e api_key,
       http_headers e !! "x-api-key" = Some api_key → api_key ≠ "" →
       req_params <$> requests (trace (search_properties (apply_defaults house_rent_2000) e))
       = [q]) ∧
    (∀ f,
       (is_Some (range_value f (apply_defaults house_rent_2000))
        ↔ ∃ v, (range_key f, v) ∈ q) ∧
       (∀ n, range_value f (apply_defaults house_rent_2000) = Some n →
             values_of (range_key f) q = [str n]) ∧
       (range_value f (apply_defaults house_rent_2000) = None →
        values_of (range_key f) q = [])).
Proof.
  split.
  - apply (bool_decide_unpack _). vm_compute. exact I.
  - apply (translate_total_deterministic_optional (apply_defaults house_rent_2000)).
    apply (bool_decide_unpack _). vm_compute. exact I.
Defined.

(** C3. Every translated query has one [itemsPerPage] pair and one [page]
    pair, carrying the values of the call, which are 5 and 1 when the
    caller leaves them out, and the pair [withCoherentPrice=true]. *)
Theorem pagination_and_flag_always_present a :
  valid (apply_defaults a) →
  ∃ q,
    translate (apply_defaults a) = Return q ∧
    values_of "itemsPerPage" q = [str (items_per_page (apply_defaults a))] ∧
    values_of "page" q = [str (page (apply_defaults a))] ∧
    (arg_items_per_page a = None → ("itemsPerPage", "5") ∈ q) ∧
    (arg_page a = None → ("page", "1") ∈ q) ∧
    values_of "withCoherentPrice" q = ["true"] ∧
    ("withCoherentPrice", "true") ∈ q.
Proof.
  intros Hvalid. destruct (translate_valid _ Hvalid) as [q Hq].
  exists q. split; [done|].
  destruct (translate_Return_inv _ _ Hq) as (ptype & ttype & _ & _ & Hbuild).
  assert (values_of "itemsPerPage" q = [str (items_per_page (apply_defaults a))]) as Hipp.
  { rewrite Hbuild. by read_query. }
  assert (values_of "page" q = [str (page (apply_defaults a))]) as Hpage.
  { rewrite Hbuild. by read_query. }
  assert (values_of "withCoherentPrice" q = ["true"]) as Hflag.
  { rewrite Hbuild. by read_query. }
  repeat split; try done.
  - intros Hnone. apply elem_of_values_of. rewrite Hipp. simpl. rewrite Hnone.
    set_solver.
  - intros Hnone. apply elem_of_values_of. rewrite Hpage. simpl. rewrite Hnone.
    set_solver.
  - apply elem_of_values_of. rewrite Hflag. set_solver.
Qed.

Lemma pagination_and_flag_always_present_witness :
  valid (apply_defaults no_arguments) ∧
  ∃ q,
    translate (apply_defaults no_arguments) = Return q ∧
    values_of "itemsPerPage" q = [str (items_per_page (apply_defaults no_arguments))] ∧
    values_of "page" q = [str (page (apply_defaults no_arguments))] ∧
    (arg_items_per_page no_arguments = None → ("itemsPerPage", "5") ∈ q) ∧
    (arg_page no_arguments = None → ("page", "1") ∈ q) ∧
    values_of "withCoherentPrice" q = ["true"] ∧
    ("withCoherentPrice", "true") ∈ q.
Proof.
  split.
  - apply (bool_decide_unpack _). vm_compute. exact I.
  - apply (pagination_and_flag_always_present no_arguments).
    apply (bool_decide_unpack _). vm_compute. exact I.
Defined.

(** C4. The sort pairs of a translated query: [order[pricePerMeter]=asc]
    alone for [orderBy = "pricePerMeter"], [order[price]=asc] alone for
    ["price"], [order[updatedAt]=desc] alone for ["updatedAt"], and none
    when [orderBy] is absent or any other string. *)
Theorem order_by_sort_pair c q :
  translate c = Return q →
  (order_by c = Some "pricePerMeter" → sort_pairs q = [("order[pricePerMeter]", "asc")]) ∧
  (order_by c = Some "price" → sort_pairs q = [("order[price]", "asc")]) ∧
  (order_by c = Some "updatedAt" → sort_pairs q = [("order[updatedAt]", "desc")]) ∧
  (order_by c = None → sort_pairs q = []) ∧
  (∀ s, order_by c = Some s →
        s ∉ ["pricePerMeter"; "price"; "updatedAt"] → sort_pairs q = []).
Proof.
  intros Hq. destruct (translate_Return_inv _ _ Hq) as (ptype & ttype & _ & _ & ->).
  rewrite sort_pairs_build_params.
  repeat split.
  - by intros ->.
  - by intros ->.
  - by intros ->.
  - by intros ->.
  - intros s -> Hs. unfold append_order.
    repeat case_decide; try done; subst s; set_solver.
Qed.

Lemma order_by_sort_pair_witness :
  translate (apply_defaults paris_apartments)
  = Return [("propertyTypes[]", "0"); ("transactionType", "0"); ("bedroomMin", "2");
            ("includedZipcodes[]", "75001"); ("includedZipcodes[]", "75002");
            ("order[updatedAt]", "desc");
            ("itemsPerPage", "5"); ("page", "1"); ("withCoherentPrice", "true")] ∧
  sort_pairs [("propertyTypes[]", "0"); ("transactionType", "0"); ("bedroomMin", "2");
              ("includedZipcodes[]", "75001"); ("includedZipcodes[]", "75002");
              ("order[updatedAt]", "desc");
              ("itemsPerPage", "5"); ("page", "1"); ("withCoherentPrice", "true")]
  = [("order[updatedAt]", "desc")].
Proof.
  assert (translate (apply_defaults paris_apartments)
          = Return [("propertyTypes[]", "0"); ("transactionType", "0"); ("bedroomMin", "2");
                    ("includedZipcodes[]", "75001"); ("includedZipcodes[]", "75002");
                    ("order[updatedAt]", "desc");
                    ("itemsPerPage", "5"); ("page", "1"); ("withCoherentPrice", "true")])
    as Hq by (vm_compute; reflexivity).
  split; [exact Hq|].
  apply (order_by_sort_pair (apply_defaults paris_apartments) _ Hq).
  reflexivity.
Defined.

(** C5. The zip codes of the criteria come out as [includedZipcodes[]]
    pairs, one per entry of the list, in the order of the list, repeated
    entries included. *)
Theorem zip_codes_in_order c q zips :
  translate c = Return q →
  zip_codes c = Some zips →
  zips ≠ [] →
  filter (λ kv, kv.1 = "includedZipcodes[]") q = pair "includedZipcodes[]" <$> zips ∧
  values_of "includedZipcodes[]" q = zips ∧
  length (filter (λ kv, kv.1 = "includedZipcodes[]") q) = length zips.
Proof.
  intros Hq Hzips _.
  destruct (translate_Return_inv _ _ Hq) as (ptype & ttype & _ & _ & Hbuild).
  assert (values_of "includedZipcodes[]" q = zips) as Hvalues.
  { rewrite Hbuild, Hzips. by read_query. }
  rewrite filter_key_values_of, Hvalues. by rewrite length_fmap.
Qed.

Lemma zip_codes_in_order_witness :
  translate (with_zip_codes (Some ["75011"; "75012"; "75011"]) (apply_defaults no_arguments))
  = Return [("propertyTypes[]", "0"); ("transactionType", "0");
            ("includedZipcodes[]", "75011"); ("includedZipcodes[]", "75012");
            ("includedZipcodes[]", "75011");
            ("itemsPerPage", "5"); ("page", "1"); ("withCoherentPrice", "true")] ∧
  values_of "includedZipcodes[]"
    [("propertyTypes[]", "0"); ("transactionType", "0");
     ("includedZipcodes[]", "75011"); ("includedZipcodes[]", "75012");
     ("includedZipcodes[]", "75011");
     ("itemsPerPage", "5"); ("page", "1"); ("withCoherentPrice", "true")]
  = ["75011"; "75012"; "75011"].
Proof.
  assert (translate (with_zip_codes (Some ["75011"; "75012"; "75011"])
                       (apply_defaults no_arguments))
          = Return [("propertyTypes[]", "0"); ("transactionType", "0");
                    ("includedZipcodes[]", "75011"); ("includedZipcodes[]", "75012");
                    ("includedZipcodes[]", "75011");
                    ("itemsPerPage", "5"); ("page", "1"); ("withCoherentPrice", "true")])
    as Hq by (vm_compute; reflexivity).
  split; [exact Hq|].
  apply (zip_codes_in_order _ _ ["75011"; "75012"; "75011"] Hq); [reflexivity|].
  discriminate.
Defined.

(** C10. An empty list of zip codes gives the query of an absent list: no
    [includedZipcodes[]] pair. *)
Theorem empty_zip_codes_as_absent c q :
  zip_codes c = Some [] →
  translate c = Return q →
  values_of "includedZipcodes[]" q = [] ∧
  (∀ v, ("includedZipcodes[]", v) ∉ q) ∧
  translate (with_zip_codes None c) = Return q.
Proof.
  intros Hzips Hq.
  destruct (translate_Return_inv _ _ Hq) as (ptype & ttype & Hp & Ht & Hbuild).
  assert (values_of "includedZipcodes[]" q = []) as Hvalues.
  { rewrite Hbuild, Hzips. by read_query. }
  split; [done|]. split.
  - intros v Hv. apply elem_of_values_of in Hv. rewrite Hvalues in Hv. set_solver.
  - unfold translate. simpl. rewrite Hp, Ht, Hbuild, Hzips. done.
Qed.

Lemma empty_zip_codes_as_absent_witness :
  zip_codes (with_zip_codes (Some []) (apply_defaults house_rent_2000)) = Some [] ∧
  translate (with_zip_codes (Some []) (apply_defaults house_rent_2000))
  = Return [("propertyTypes[]", "1"); ("transactionType", "1"); ("budgetMax", "2000");
            ("itemsPerPage", "5"); ("page", "1"); ("withCoherentPrice", "true")] ∧
  translate (with_zip_codes None
               (with_zip_codes (Some []) (apply_defaults house_rent_2000)))
  = Return [("propertyTypes[]", "1"); ("transactionType", "1"); ("budgetMax", "2000");
            ("itemsPerPage", "5"); ("page", "1"); ("withCoherentPrice", "true")].
Proof.
  assert (translate (with_zip_codes (Some []) (apply_defaults house_rent_2000))
          = Return [("propertyTypes[]", "1"); ("transactionType", "1");
                    ("budgetMax", "2000");
                    ("itemsPerPage", "5"); ("page", "1"); ("withCoherentPrice", "true")])
    as Hq by (vm_compute; reflexivity).
  split; [reflexivity|]. split; [exact Hq|].
  apply (empty_zip_codes_as_absent
           (with_zip_codes (Some []) (apply_defaults house_rent_2000)) _ eq_refl Hq).
Defined.


(** C7. Without [x-api-key] among the headers the tool logs the error and
    raises the [ValueError] of the missing credential, and no request has
    gone to the upstream. *)
Theorem missing_credential c e :
  http_headers e !! "x-api-key" = None →
  search_properties c e
  = ([Log ERROR (Text "❌ Missing X-API-KEY header")],
     Raise (ValueError missing_key_message)) ∧
  requests (trace (search_properties c e)) = [].
Proof.
  intros Hkey. unfold search_properties. run_effects. by rewrite Hkey.
Qed.

Lemma missing_credential_witness :
  http_headers env_without_key !! "x-api-key" = None ∧
  search_properties (apply_defaults house_rent_2000) env_without_key
  = ([Log ERROR (Text "❌ Missing X-API-KEY header")],
     Raise (ValueError missing_key_message)) ∧
  requests (trace (search_properties (apply_defaults house_rent_2000) env_without_key)) = [].
Proof.
  split; [vm_compute; reflexivity|].
  apply (missing_credential (apply_defaults house_rent_2000) env_without_key).
  vm_compute; reflexivity.
Defined.

(** C8. When the upstream answers with a status outside 2xx: a status 401
    or 403 makes the call fail with the [ValueError] of an invalid
    credential, whose message is a fixed text that is not built from the
    credential (any other invocation, with any other credential, answered
    401 or 403, fails with the very same error); any other status makes the
    call fail with the [HTTPStatusError] of that response, which carries
    its status and body. *)
Theorem upstream_status_classified c e api_key q resp :
  http_headers e !! "x-api-key" = Some api_key → api_key ≠ "" →
  translate c = Return q →
  upstream e (melo_request api_key q) = inr resp →
  (status_code resp = 401 ∨ status_code resp = 403 →
     outcome (search_properties c e)
     = Raise (ValueError "Invalid Melo API key. Please check your credentials.") ∧
     ∀ e' api_key' resp',
       http_headers e' !! "x-api-key" = Some api_key' → api_key' ≠ "" →
       upstream e' (melo_request api_key' q) = inr resp' →
       status_code resp' = 401 ∨ status_code resp' = 403 →
       outcome (search_properties c e') = outcome (search_properties c e)) ∧
  (¬ 200 ≤ status_code resp ≤ 299 →
   status_code resp ≠ 401 → status_code resp ≠ 403 →
     ∃ rq r,
       outcome (search_properties c e) = Raise (HTTPStatusError rq r) ∧
       rq = melo_request api_key q ∧ r = resp ∧
       status_code r = status_code resp ∧ json_body r = json_body resp).
Proof.
  intros Hkey Hne Hq Hup. split.
  - intros Hst.
    assert (∀ e' api_key' resp',
              http_headers e' !! "x-api-key" = Some api_key' → api_key' ≠ "" →
              upstream e' (melo_request api_key' q) = inr resp' →
              status_code resp' = 401 ∨ status_code resp' = 403 →
              outcome (search_properties c e')
              = Raise (ValueError invalid_key_message)) as Hfixed.
    { intros e' api_key' resp' Hkey' Hne' Hup' Hst'.
      destruct (search_properties_run c e' api_key' q Hkey' Hne' Hq) as (t & _ & ->).
      unfold outcome at 1; simpl. by rewrite (fetch_unauthorized _ e' resp' Hup' Hst'). }
    split.
    + by apply (Hfixed e api_key resp).
    + intros e' api_key' resp' Hkey' Hne' Hup' Hst'.
      rewrite (Hfixed e' api_key' resp') by done.
      by rewrite (Hfixed e api_key resp).
  - intros Hfail H401 H403.
    destruct (search_properties_run c e api_key q Hkey Hne Hq) as (t & _ & ->).
    unfold outcome at 1; simpl.
    rewrite (fetch_status_error _ e resp Hup); [|by apply bool_decide_eq_false|done..].
    by exists (melo_request api_key q), resp.
Qed.

Lemma upstream_status_classified_witness :
  outcome (search_properties (apply_defaults house_rent_2000)
             (env_answering "sk-7f3a9c" unauthorized))
  = Raise (ValueError "Invalid Melo API key. Please check your credentials.") ∧
  outcome (search_properties (apply_defaults house_rent_2000)
             (env_answering "another-key" unauthorized))
  = outcome (search_properties (apply_defaults house_rent_2000)
               (env_answering "sk-7f3a9c" unauthorized)) ∧
  contains "sk-7f3a9c" "Invalid Melo API key. Please check your credentials." = false ∧
  ∃ rq r,
    outcome (search_properties (apply_defaults house_rent_2000)
               (env_answering "sk-7f3a9c" server_error))
    = Raise (HTTPStatusError rq r) ∧
    rq = melo_request "sk-7f3a9c" house_rent_query ∧ r = server_error ∧
    status_code r = status_code server_error ∧ json_body r = json_body server_error.
Proof.
  assert (http_headers (env_answering "sk-7f3a9c" unauthorized) !! "x-api-key"
          = Some "sk-7f3a9c") as Hkey by (vm_compute; reflexivity).
  assert (http_headers (env_answering "another-key" unauthorized) !! "x-api-key"
          = Some "another-key") as Hkey' by (vm_compute; reflexivity).
  assert (http_headers (env_answering "sk-7f3a9c" server_error) !! "x-api-key"
          = Some "sk-7f3a9c") as Hkey500 by (vm_compute; reflexivity).
  assert (translate (apply_defaults house_rent_2000) = Return house_rent_query) as Hq
    by (vm_compute; reflexivity).
  destruct (upstream_status_classified (apply_defaults house_rent_2000)
              (env_answering "sk-7f3a9c" unauthorized) "sk-7f3a9c"
              house_rent_query unauthorized Hkey ltac:(discriminate) Hq eq_refl)
    as [H401 _].
  destruct (H401 (or_introl eq_refl)) as [Hmsg Hsame].
  destruct (upstream_status_classified (apply_defaults house_rent_2000)
              (env_answering "sk-7f3a9c" server_error) "sk-7f3a9c"
              house_rent_query server_error Hkey500 ltac:(discriminate) Hq eq_refl)
    as [_ H500].
  split; [exact Hmsg|]. split.
  - apply (Hsame (env_answering "another-key" unauthorized) "another-key" unauthorized
             Hkey' ltac:(discriminate) eq_refl (or_introl eq_refl)).
  - split; [vm_compute; reflexivity|].
    apply H500; simpl; lia.
Defined.

(** When the decoded payload is a [dict] whose [hydra:member] has a length,
    or is missing, a 2xx answer is returned to the caller as decoded. *)
Lemma search_properties_returns_payload c e api_key q resp members :
  http_headers e !! "x-api-key" = Some api_key → api_key ≠ "" →
  translate c = Return q →
  upstream e (melo_request api_key q) = inr resp →
  is_success resp = true →
  json_body resp = Some (JObj members) →
  has_len (default (JList []) (dict_lookup members "hydra:member")) = true →
  outcome (search_properties c e) = Return (JObj members).
Proof.
  intros Hkey Hne Hq Hup Hok Hbody Hlen.
  destruct (search_properties_run c e api_key q Hkey Hne Hq) as (t & _ & ->).
  unfold outcome at 1; simpl. by apply (fetch_success _ e resp).
Qed.

Example three_items_returned :
  outcome (search_properties (apply_defaults house_rent_2000)
             (env_answering "sk-7f3a9c" ok_three_items))
  = Return three_items_payload.
Proof. vm_compute. reflexivity. Qed.

(** C9 at a 200 answer whose body is the JSON document
    [{"hydra:totalItems": 0, "hydra:member": null}]: the f-string of the
    log record takes [len] of [None], the [TypeError] leaves the [try]
    block, which handles [HTTPStatusError] only, and the caller gets the
    exception instead of the payload. *)
Theorem null_member_payload_lost :
  is_success ok_null_member = true ∧
  json_body ok_null_member = Some null_member_payload ∧
  outcome (search_properties (apply_defaults house_rent_2000)
             (env_answering "sk-7f3a9c" ok_null_member))
  = Raise (TypeError "object of type 'NoneType' has no len()") ∧
  outcome (search_properties (apply_defaults house_rent_2000)
             (env_answering "sk-7f3a9c" ok_null_member))
  ≠ Return null_member_payload.
Proof.
  split; [vm_compute; reflexivity|]. split; [reflexivity|].
  assert (outcome (search_properties (apply_defaults house_rent_2000)
                     (env_answering "sk-7f3a9c" ok_null_member))
          = Raise (TypeError "object of type 'NoneType' has no len()")) as ->
    by (vm_compute; reflexivity).
  split; [done|]. discriminate.
Qed.

(** * Further properties of the code *)

(** ** The credential check *)

(** X1. A header [x-api-key] that is present and empty is refused like a
    missing one: the same error record, the same [ValueError], and nothing
    sent to the upstream. *)
Theorem empty_credential_refused c e :
  http_headers e !! "x-api-key" = Some "" →
  search_properties c e
  = ([Log ERROR (Text "❌ Missing X-API-KEY header")],
     Raise (ValueError missing_key_message)) ∧
  requests (trace (search_properties c e)) = [].
Proof.
  intros Hkey. unfold search_properties. run_effects. by rewrite Hkey.
Qed.

Lemma empty_credential_refused_witness :
  http_headers env_empty_key !! "x-api-key" = Some "" ∧
  search_properties castle_criteria env_empty_key
  = ([Log ERROR (Text "❌ Missing X-API-KEY header")],
     Raise (ValueError missing_key_message)) ∧
  requests (trace (search_properties castle_criteria env_empty_key)) = [].
Proof.
  split; [vm_compute; reflexivity|].
  apply (empty_credential_refused castle_criteria env_empty_key).
  vm_compute; reflexivity.
Defined.

(** ** What goes to the upstream *)

(** Without a usable credential nothing is sent. *)
Lemma search_properties_no_key c e :
  http_headers e !! "x-api-key" = None ∨ http_headers e !! "x-api-key" = Some "" →
  requests (trace (search_properties c e)) = [].
Proof.
  intros [Hkey|Hkey]; unfold search_properties; run_effects; by rewrite Hkey.
Qed.

Lemma request_shape c e rq :
  rq ∈ requests (trace (search_properties c e)) →
  requests (trace (search_properties c e)) = [rq] ∧
  ∃ api_key q,
    http_headers e !! "x-api-key" = Some api_key ∧ api_key ≠ "" ∧
    translate c = Return q ∧ rq = melo_request api_key q.
Proof.
  destruct (http_headers e !! "x-api-key") as [api_key|] eqn:Hkey.
  2: { intros Hin. rewrite (search_properties_no_key c e) in Hin by auto.
       by apply not_elem_of_nil in Hin. }
  destruct (decide (api_key = "")) as [->|Hne].
  { intros Hin. rewrite (search_properties_no_key c e) in Hin by auto.
    by apply not_elem_of_nil in Hin. }
  destruct (translate c) as [q|x] eqn:Hq.
  - rewrite (search_properties_sends c e api_key q Hkey Hne Hq).
    intros Hin%list_elem_of_singleton. subst rq. split; [done|]. by exists api_key, q.
  - destruct (search_properties_KeyError c e api_key x Hkey Hne Hq) as [_ Hnone].
    rewrite Hnone. intros Hin. by apply not_elem_of_nil in Hin.
Qed.

(** X2. An invocation sends at most one request, whatever the arguments,
    the headers and the answers of the upstream: there is no retry.  It
    sends one exactly when the credential is present and not empty and
    both labels are keys of the dictionaries. *)
Theorem at_most_one_request c e :
  (length (requests (trace (search_properties c e))) ≤ 1)%nat ∧
  (length (requests (trace (search_properties c e))) = 1%nat ↔
   ∃ api_key q,
     http_headers e !! "x-api-key" = Some api_key ∧ api_key ≠ "" ∧
     translate c = Return q).
Proof.
  destruct (requests (trace (search_properties c e))) as [|rq rest] eqn:Hreq.
  - split; [simpl; lia|]. split; [done|].
    intros (api_key & q & Hkey & Hne & Hq).
    by rewrite (search_properties_sends c e api_key q Hkey Hne Hq) in Hreq.
  - destruct (request_shape c e rq) as (Hone & api_key & q & Hkey & Hne & Hq & _).
    { rewrite Hreq. apply list_elem_of_here. }
    rewrite Hreq in Hone. injection Hone as ->. split; [done|].
    split; [|done]. intros _. by exists api_key, q.
Qed.

(** X3. A request that is sent goes to the fixed endpoint, carries the
    JSON content type and, under [X-API-KEY], the credential of the
    incoming [x-api-key] header unchanged, and its query is the
    translation of the criteria. *)
Theorem request_carries_credential c e rq :
  rq ∈ requests (trace (search_properties c e)) →
  req_url rq = "https://api.notif.immo/documents/properties" ∧
  ∃ api_key,
    http_headers e !! "x-api-key" = Some api_key ∧
    req_headers rq = [("Content-Type", "application/json"); ("X-API-KEY", api_key)] ∧
    translate c = Return (req_params rq).
Proof.
  intros Hin.
  destruct (request_shape c e rq Hin) as (_ & api_key & q & Hkey & _ & Hq & ->).
  split; [done|]. by exists api_key.
Qed.

Lemma request_carries_credential_witness :
  melo_request "sk-7f3a9c" house_rent_query
    ∈ requests (trace (search_properties (apply_defaults house_rent_2000)
                         (env_unreachable "sk-7f3a9c"))) ∧
  req_url (melo_request "sk-7f3a9c" house_rent_query)
  = "https://api.notif.immo/documents/properties".
Proof.
  assert (melo_request "sk-7f3a9c" house_rent_query
            ∈ requests (trace (search_properties (apply_defaults house_rent_2000)
                                 (env_unreachable "sk-7f3a9c")))) as Hin.
  { vm_compute. apply list_elem_of_here. }
  split; [exact Hin|].
  apply (request_carries_credential (apply_defaults house_rent_2000)
           (env_unreachable "sk-7f3a9c") _ Hin).
Defined.

(** ** Outcomes of the call *)

(** An exception of the transport, not being an [HTTPStatusError], passes
    the handler unchanged. *)
Lemma fetch_transport_failure rq e x :
  upstream e rq = inl x →
  (∀ rq' r, x ≠ HTTPStatusError rq' r) →
  fetch rq e = ([Get rq], Raise x).
Proof.
  intros Hup Hx. unfold fetch. run_effects. rewrite Hup; simpl.
  destruct x; try done. by destruct (Hx request response).
Qed.

Lemma fetch_not_json rq e resp :
  upstream e rq = inr resp →
  is_success resp = true →
  json_body resp = None →
  fetch rq e = ([Get rq], Raise JSONDecodeError).
Proof.
  intros Hup Hok Hbody. unfold fetch. run_effects. rewrite Hup; simpl.
  rewrite Hok; simpl. by rewrite Hbody.
Qed.

(** The block returns only the decoded body of a 2xx answer, and only when
    the two log lines could read it. *)
Lemma fetch_Return_inv rq e v :
  outcome (fetch rq e) = Return v →
  ∃ resp members,
    upstream e rq = inr resp ∧ is_success resp = true ∧
    json_body resp = Some v ∧ v = JObj members ∧
    has_len (default (JList []) (dict_lookup members "hydra:member")) = true.
Proof.
  unfold fetch. run_effects.
  destruct (upstream e rq) as [x|resp]; simpl.
  - destruct x; simpl; try done. by case_decide.
  - destruct (is_success resp) eqn:Hok; simpl; [|by case_decide].
    destruct (json_body resp) as [payload|] eqn:Hbody; simpl; [|done].
    unfold py_get, py_len; run_effects.
    destruct payload as [| | | | | |members]; simpl; try done.
    destruct (dict_lookup members "hydra:member") as [[]|] eqn:Hm; simpl; try done;
      intros [= <-]; exists resp, members; by rewrite Hm.
Qed.

(** A 2xx answer whose payload the log lines cannot read. *)
Lemma fetch_unreadable rq e resp payload :
  upstream e rq = inr resp →
  is_success resp = true →
  json_body resp = Some payload →
  (∀ members, payload ≠ JObj members) ∨
  (∃ members member,
     payload = JObj members ∧ dict_lookup members "hydra:member" = Some member ∧
     has_len member = false) →
  ∃ x, outcome (fetch rq e) = Raise x ∧
    ((∀ members, payload ≠ JObj members) →
       x = AttributeError ("'" +:+ type_name payload +:+ "' object has no attribute 'get'")) ∧
    (∀ members member,
       payload = JObj members → dict_lookup members "hydra:member" = Some member →
       x = TypeError ("object of type '" +:+ type_name member +:+ "' has no len()")).
Proof.
  intros Hup Hok Hbody Hshape. unfold fetch. run_effects. rewrite Hup; simpl.
  rewrite Hok; simpl. rewrite Hbody; simpl. unfold py_get, py_len; run_effects.
  destruct Hshape as [Hnot|(members & member & -> & Hm & Hlen)].
  - destruct payload as [| | | | | |members]; simpl;
      try (eexists; split; [done|]; split; [done|]; by intros ms m [=]).
    by destruct (Hnot members).
  - rewrite Hm; simpl.
    destruct member; simpl in *; try done;
      (eexists; split; [done|]; split;
       [by intros Hnot; destruct (Hnot members)
       |by intros ms m [= <-]; rewrite Hm; intros [= <-]]).
Qed.

Lemma log_request_eq url params e :
  log_request url params e = (request_log url params, Return ()).
Proof.
  unfold log_request. unfold mbind at 1 2 3 4. unfold M_bind, bind; simpl.
  by rewrite for_each_logger_info.
Qed.

(** The whole run of a call that passes the credential check and the
    label lookups: the notice, the request log, then the block. *)
Lemma search_properties_trace c e api_key q :
  http_headers e !! "x-api-key" = Some api_key → api_key ≠ "" →
  translate c = Return q →
  search_properties c e
  = (Log INFO (Text "🔑 Using API key from request headers")
       :: request_log melo_url q ++ trace (fetch (melo_request api_key q) e),
     outcome (fetch (melo_request api_key q) e)).
Proof.
  intros Hkey Hne Hq.
  destruct (translate_Return_inv _ _ Hq) as (ptype & ttype & Hp & Ht & ->).
  unfold search_properties. run_effects. rewrite Hkey, decide_False by done.
  rewrite Hp, Ht; simpl. unfold _search_melo_properties. run_effects.
  rewrite log_request_eq. by destruct (fetch _ e).
Qed.

(** X4. A failure of the transport (a timeout, a refused connection)
    reaches the caller as the exception it is, after the one request and
    with no response logged: the handler of the block catches
    [HTTPStatusError] only. *)
Theorem transport_failure_propagates c e api_key q x :
  http_headers e !! "x-api-key" = Some api_key → api_key ≠ "" →
  translate c = Return q →
  upstream e (melo_request api_key q) = inl x →
  (∀ rq r, x ≠ HTTPStatusError rq r) →
  outcome (search_properties c e) = Raise x ∧
  trace (search_properties c e)
  = Log INFO (Text "🔑 Using API key from request headers")
    :: request_log melo_url q ++ [Get (melo_request api_key q)].
Proof.
  intros Hkey Hne Hq Hup Hx.
  rewrite (search_properties_trace c e api_key q Hkey Hne Hq).
  by rewrite (fetch_transport_failure _ e x Hup Hx).
Qed.

Lemma transport_failure_propagates_witness :
  outcome (search_properties (apply_defaults house_rent_2000) (env_unreachable "sk-7f3a9c"))
  = Raise (TransportError "timed out") ∧
  trace (search_properties (apply_defaults house_rent_2000) (env_unreachable "sk-7f3a9c"))
  = Log INFO (Text "🔑 Using API key from request headers")
    :: request_log melo_url house_rent_query ++ [Get (melo_request "sk-7f3a9c" house_rent_query)].
Proof.
  apply (transport_failure_propagates (apply_defaults house_rent_2000)
           (env_unreachable "sk-7f3a9c") "sk-7f3a9c" house_rent_query
           (TransportError "timed out")).
  - vm_compute; reflexivity.
  - discriminate.
  - vm_compute; reflexivity.
  - reflexivity.
  - discriminate.
Defined.

(** X5. A 2xx answer whose body is not JSON: [response.json()] raises, the
    decoding error reaches the caller, and nothing of the response has
    been logged. *)
Theorem non_json_body_raises c e api_key q resp :
  http_headers e !! "x-api-key" = Some api_key → api_key ≠ "" →
  translate c = Return q →
  upstream e (melo_request api_key q) = inr resp →
  200 ≤ status_code resp ≤ 299 →
  json_body resp = None →
  outcome (search_properties c e) = Raise JSONDecodeError ∧
  logs (trace (search_properties c e))
  = logs (Log INFO (Text "🔑 Using API key from request headers")
            :: request_log melo_url q).
Proof.
  intros Hkey Hne Hq Hup Hst Hbody.
  rewrite (search_properties_trace c e api_key q Hkey Hne Hq).
  rewrite (fetch_not_json _ e resp Hup); [|by apply bool_decide_eq_true|done].
  split; [done|]. unfold trace, logs; simpl. by rewrite omap_app, app_nil_r.
Qed.

Lemma non_json_body_raises_witness :
  outcome (search_properties (apply_defaults house_rent_2000)
             (env_answering "sk-7f3a9c" ok_not_json))
  = Raise JSONDecodeError.
Proof.
  apply (non_json_body_raises (apply_defaults house_rent_2000)
           (env_answering "sk-7f3a9c" ok_not_json) "sk-7f3a9c" house_rent_query
           ok_not_json).
  - vm_compute; reflexivity.
  - discriminate.
  - vm_compute; reflexivity.
  - reflexivity.
  - simpl; lia.
  - reflexivity.
Defined.

(** X6. The tool returns a value exactly when the credential is present
    and not empty, the labels are known, and the upstream answers 2xx with
    a JSON object whose [hydra:member] is absent or has a length; the
    value is then that decoded object.  Nothing else is ever returned. *)
Theorem returned_value_characterised c e v :
  outcome (search_properties c e) = Return v ↔
  ∃ api_key q resp members,
    http_headers e !! "x-api-key" = Some api_key ∧ api_key ≠ "" ∧
    translate c = Return q ∧
    upstream e (melo_request api_key q) = inr resp ∧
    200 ≤ status_code resp ≤ 299 ∧
    json_body resp = Some v ∧ v = JObj members ∧
    has_len (default (JList []) (dict_lookup members "hydra:member")) = true.
Proof.
  split.
  - destruct (http_headers e !! "x-api-key") as [api_key|] eqn:Hkey.
    2: { unfold search_properties. run_effects. by rewrite Hkey. }
    destruct (decide (api_key = "")) as [->|Hne].
    { unfold search_properties. run_effects. by rewrite Hkey. }
    destruct (translate c) as [q|x] eqn:Hq.
    + rewrite (search_properties_trace c e api_key q Hkey Hne Hq).
      unfold outcome at 1; simpl. intros Hret.
      destruct (fetch_Return_inv _ e v Hret) as (resp & members & Hup & Hok & Hbody & -> & Hlen).
      exists api_key, q, resp, members. repeat split; try done;
        by apply bool_decide_eq_true in Hok as [? ?].
    + destruct (search_properties_KeyError c e api_key x Hkey Hne Hq) as [-> _]. done.
  - intros (api_key & q & resp & members & Hkey & Hne & Hq & Hup & Hst & Hbody & -> & Hlen).
    rewrite (search_properties_trace c e api_key q Hkey Hne Hq).
    unfold outcome at 1; simpl.
    apply (fetch_success _ e resp members Hup); [by apply bool_decide_eq_true|done..].
Qed.

(** X7. A 2xx answer whose decoded payload is not a JSON object makes the
    call fail with the [AttributeError] of [.get]; a JSON object whose
    [hydra:member] is present and has no length (null, a number, a
    boolean) makes it fail with the [TypeError] of [len].  The payload is
    not returned in either case. *)
Theorem unreadable_payload_raises c e api_key q resp payload :
  http_headers e !! "x-api-key" = Some api_key → api_key ≠ "" →
  translate c = Return q →
  upstream e (melo_request api_key q) = inr resp →
  200 ≤ status_code resp ≤ 299 →
  json_body resp = Some payload →
  (∀ members, payload ≠ JObj members) ∨
  (∃ members member,
     payload = JObj members ∧ dict_lookup members "hydra:member" = Some member ∧
     has_len member = false) →
  ∃ x, outcome (search_properties c e) = Raise x ∧
    ((∀ members, payload ≠ JObj members) →
       x = AttributeError ("'" +:+ type_name payload +:+ "' object has no attribute 'get'")) ∧
    (∀ members member,
       payload = JObj members → dict_lookup members "hydra:member" = Some member →
       x = TypeError ("object of type '" +:+ type_name member +:+ "' has no len()")).
Proof.
  intros Hkey Hne Hq Hup Hst Hbody Hshape.
  rewrite (search_properties_trace c e api_key q Hkey Hne Hq).
  unfold outcome at 1; simpl.
  apply (fetch_unreadable _ e resp payload Hup); [by apply bool_decide_eq_true|done..].
Qed.

Lemma unreadable_payload_raises_witness :
  ∃ x,
    outcome (search_properties (apply_defaults house_rent_2000)
               (env_answering "sk-7f3a9c" ok_array)) = Raise x ∧
    ((∀ members, JList [] ≠ JObj members) →
       x = AttributeError ("'" +:+ type_name (JList []) +:+ "' object has no attribute 'get'")) ∧
    (∀ members member,
       JList [] = JObj members → dict_lookup members "hydra:member" = Some member →
       x = TypeError ("object of type '" +:+ type_name member +:+ "' has no len()")).
Proof.
  apply (unreadable_payload_raises (apply_defaults house_rent_2000)
           (env_answering "sk-7f3a9c" ok_array) "sk-7f3a9c" house_rent_query
           ok_array (JList [])).
  - vm_compute; reflexivity.
  - discriminate.
  - vm_compute; reflexivity.
  - reflexivity.
  - simpl; lia.
  - reflexivity.
  - left. discriminate.
Defined.

(** X8. A label that is not a key of its dictionary makes the call fail
    with [KeyError] of that label, after the credential notice and before
    any request; the property type is looked up first. *)
Theorem unknown_label_raises c e api_key :
  http_headers e !! "x-api-key" = Some api_key → api_key ≠ "" →
  (property_type c ∉ ["apartment"; "house"] →
   search_properties c e
   = ([Log INFO (Text "🔑 Using API key from request headers")],
      Raise (KeyError (property_type c)))) ∧
  (property_type c ∈ ["apartment"; "house"] →
   transaction_type c ∉ ["sell"; "rent"] →
   search_properties c e
   = ([Log INFO (Text "🔑 Using API key from request headers")],
      Raise (KeyError (transaction_type c)))).
Proof.
  intros Hkey Hne. split.
  - intros Hp. unfold search_properties. run_effects.
    rewrite Hkey, decide_False by done. rewrite property_type_map_lookup.
    rewrite !not_elem_of_cons in Hp. destruct Hp as (? & ? & _).
    by rewrite !decide_False by done.
  - intros Hp Ht. unfold search_properties. run_effects.
    rewrite Hkey, decide_False by done.
    rewrite property_type_map_lookup, transaction_type_map_lookup.
    rewrite !not_elem_of_cons in Ht. destruct Ht as (? & ? & _).
    rewrite !elem_of_cons in Hp. destruct Hp as [->|[->|Hp]];
      [| |by apply not_elem_of_nil in Hp]; simpl; by rewrite !decide_False by done.
Qed.

Lemma unknown_label_raises_witness :
  search_properties castle_criteria (env_unreachable "sk-7f3a9c")
  = ([Log INFO (Text "🔑 Using API key from request headers")],
     Raise (KeyError "castle")).
Proof.
  apply (unknown_label_raises castle_criteria (env_unreachable "sk-7f3a9c") "sk-7f3a9c").
  - vm_compute; reflexivity.
  - discriminate.
  - vm_compute. intros H. inversion H as [|? ? ? H1]; subst.
    inversion H1 as [|? ? ? H2]; subst. inversion H2.
Defined.

(** ** What the log holds *)

Lemma logs_fetch rq1 e1 rq2 e2 :
  upstream e1 rq1 = upstream e2 rq2 →
  logs (trace (fetch rq1 e1)) = logs (trace (fetch rq2 e2)).
Proof.
  intros Hup. unfold fetch. run_effects. rewrite Hup.
  destruct (upstream e2 rq2) as [x|resp]; simpl.
  - destruct x; simpl; try done. by case_decide.
  - destruct (is_success resp); simpl; [|by case_decide].
    destruct (json_body resp) as [payload|]; simpl; [|done].
    unfold py_get, py_len; run_effects.
    destruct payload as [| | | | | |members]; simpl; try done.
    destruct (dict_lookup members "hydra:member") as [[]|]; done.
Qed.

(** X9. The log records of an invocation depend on the criteria and on
    what the upstream answers, not on the credential: two invocations
    with different credentials, answered alike, write the same records. *)
Theorem logs_independent_of_credential c e1 e2 k1 k2 :
  http_headers e1 !! "x-api-key" = Some k1 → k1 ≠ "" →
  http_headers e2 !! "x-api-key" = Some k2 → k2 ≠ "" →
  (∀ q, upstream e1 (melo_request k1 q) = upstream e2 (melo_request k2 q)) →
  logs (trace (search_properties c e1)) = logs (trace (search_properties c e2)).
Proof.
  intros Hk1 Hne1 Hk2 Hne2 Hup.
  destruct (translate c) as [q|x] eqn:Hq.
  - rewrite (search_properties_trace c e1 k1 q Hk1 Hne1 Hq).
    rewrite (search_properties_trace c e2 k2 q Hk2 Hne2 Hq).
    unfold trace at 1 3. cbn [fst]. rewrite !app_comm_cons.
    unfold logs at 1 2. rewrite !omap_app. f_equal.
    apply (logs_fetch _ e1 _ e2), Hup.
  - unfold translate in Hq. unfold search_properties. run_effects.
    rewrite Hk1, Hk2, !decide_False by done.
    destruct (property_type_map !! property_type c); simpl; [|done].
    by destruct (transaction_type_map !! transaction_type c).
Qed.

Lemma logs_independent_of_credential_witness :
  logs (trace (search_properties (apply_defaults paris_apartments)
                 (env_answering "sk-7f3a9c" ok_three_items)))
  = logs (trace (search_properties (apply_defaults paris_apartments)
                   (env_answering "another-key" ok_three_items))).
Proof.
  apply (logs_independent_of_credential (apply_defaults paris_apartments)
           (env_answering "sk-7f3a9c" ok_three_items)
           (env_answering "another-key" ok_three_items) "sk-7f3a9c" "another-key").
  - vm_compute; reflexivity.
  - discriminate.
  - vm_compute; reflexivity.
  - discriminate.
  - reflexivity.
Defined.

(** ** The query as a whole *)

(** X10. Every key of a query is one of the sixteen key names of the
    upstream contract, whatever the arguments: a zip code or an order name
    never becomes a key. *)
Theorem query_keys_known pt tt bmin bmax smin smax pmin pmax bed zips ob ipp pg :
  Forall (λ kv, kv.1 ∈ upstream_keys)
    (build_params pt tt bmin bmax smin smax pmin pmax bed zips ob ipp pg).
Proof.
  assert (∀ k field, k ∈ upstream_keys →
            Forall (λ kv : string * string, kv.1 ∈ upstream_keys) (append_if_set k field []))
    as Hfield.
  { intros k [v|] Hk; simpl; [|constructor]. constructor; [exact Hk|constructor]. }
  rewrite build_params_eq. repeat (apply Forall_app; split).
  1-9: apply Hfield; by apply (bool_decide_unpack _).
  - apply Forall_fmap, Forall_true. intros z. simpl. by apply (bool_decide_unpack _).
  - destruct ob as [s|]; simpl; [|done].
    repeat case_decide; try constructor; try constructor;
      by apply (bool_decide_unpack _).
  - repeat (constructor; [by apply (bool_decide_unpack _)|]). constructor.
Qed.

Lemma length_append_if_set k field : length (append_if_set k field []) = set_count field.
Proof. by destruct field. Qed.

Lemma length_append_order ob : length (append_order ob []) = order_count ob.
Proof.
  destruct ob as [s|]; [|done]. unfold append_order, order_count.
  destruct (decide (s = "")) as [->|?]; [done|].
  destruct (decide (s = "pricePerMeter")) as [->|?]; [done|].
  destruct (decide (s = "price")) as [->|?]; [done|].
  destruct (decide (s = "updatedAt")) as [->|?]; [done|].
  rewrite bool_decide_eq_false_2; [done|].
  rewrite !not_elem_of_cons. repeat split; try congruence. apply not_elem_of_nil.
Qed.

(** X11. The size of a query: one pair for each numeric argument that is
    set, one for each zip code, one for a recognised sort name, and the
    three pairs that are always there. *)
Theorem query_length pt tt bmin bmax smin smax pmin pmax bed zips ob ipp pg :
  length (build_params pt tt bmin bmax smin smax pmin pmax bed zips ob ipp pg)
  = (set_count pt + set_count tt + set_count bmin + set_count bmax
     + set_count smin + set_count smax + set_count pmin + set_count pmax
     + set_count bed + length (default [] zips) + order_count ob + 3)%nat.
Proof.
  rewrite build_params_eq, !length_app, !length_append_if_set, length_fmap,
    length_append_order. simpl. lia.
Qed.

(** ** Reading the criteria back from the query *)

Lemma str_inj a b : str a = str b → a = b.
Proof. unfold str. apply (inj pretty). Qed.

Lemma str_option_list_inj (o o' : option Z) :
  str <$> option_list o = str <$> option_list o' → o = o'.
Proof.
  destruct o as [a|], o' as [b|]; simpl; try done.
  intros [= H]. f_equal. by apply str_inj.
Qed.

Lemma property_type_map_inj a b n :
  property_type_map !! a = Some n → property_type_map !! b = Some n → a = b.
Proof.
  rewrite !property_type_map_lookup. repeat case_decide; subst; congruence.
Qed.

Lemma transaction_type_map_inj a b n :
  transaction_type_map !! a = Some n → transaction_type_map !! b = Some n → a = b.
Proof.
  rewrite !transaction_type_map_lookup. repeat case_decide; subst; congruence.
Qed.

Lemma append_order_inj ob ob' :
  ob ∈ [None; Some "pricePerMeter"; Some "price"; Some "updatedAt"] →
  ob' ∈ [None; Some "pricePerMeter"; Some "price"; Some "updatedAt"] →
  append_order ob [] = append_order ob' [] → ob = ob'.
Proof.
  rewrite !elem_of_cons.
  intros [->|[->|[->|[->|H]]]] [->|[->|[->|[->|H']]]];
    try (by apply not_elem_of_nil in H); try (by apply not_elem_of_nil in H');
    done.
Qed.

(** X12. Two valid criteria with the same query are the same criteria, an
    absent list of zip codes counting as an empty one: nothing a caller
    can set is lost in the translation, and nothing else is confused. *)
Theorem translate_injective c c' :
  valid c → valid c' →
  translate c = translate c' →
  normalize_zip_codes c = normalize_zip_codes c'.
Proof.
  intros Hv Hv' Heq.
  destruct (translate_valid c Hv) as [q Hq].
  assert (translate c' = Return q) as Hq' by congruence.
  destruct (translate_Return_inv _ _ Hq) as (p1 & t1 & Hp1 & Ht1 & Hb1).
  destruct (translate_Return_inv _ _ Hq') as (p2 & t2 & Hp2 & Ht2 & Hb2).
  assert (property_type c = property_type c') as Eptype.
  { assert ([str p1] = [str p2]) as [= E%str_inj].
    { transitivity (values_of "propertyTypes[]" q);
        [rewrite Hb1|rewrite Hb2]; by read_query. }
    subst p2. by apply (property_type_map_inj _ _ p1). }
  assert (transaction_type c = transaction_type c') as Ettype.
  { assert ([str t1] = [str t2]) as [= E%str_inj].
    { transitivity (values_of "transactionType" q);
        [rewrite Hb1|rewrite Hb2]; by read_query. }
    subst t2. by apply (transaction_type_map_inj _ _ t1). }
  assert (∀ f, range_value f c = range_value f c') as Erange.
  { intros f. apply str_option_list_inj.
    by rewrite <-(values_of_range_key f c q Hq), <-(values_of_range_key f c' q Hq'). }
  assert (default [] (zip_codes c) = default [] (zip_codes c')) as Ezip.
  { transitivity (values_of "includedZipcodes[]" q);
      [rewrite Hb1|rewrite Hb2]; by read_query. }
  assert (order_by c = order_by c') as Eorder.
  { destruct Hv as (_ & _ & Ho & _), Hv' as (_ & _ & Ho' & _).
    apply append_order_inj; [done..|].
    transitivity (sort_pairs q); [rewrite Hb1|rewrite Hb2];
      by rewrite sort_pairs_build_params. }
  assert (items_per_page c = items_per_page c') as Eipp.
  { apply str_inj. assert ([str (items_per_page c)] = [str (items_per_page c')]) as [= E];
      [|done].
    transitivity (values_of "itemsPerPage" q); [rewrite Hb1|rewrite Hb2]; by read_query. }
  assert (page c = page c') as Epage.
  { apply str_inj. assert ([str (page c)] = [str (page c')]) as [= E]; [|done].
    transitivity (values_of "page" q); [rewrite Hb1|rewrite Hb2]; by read_query. }
  pose proof (Erange BudgetMin) as E1. pose proof (Erange BudgetMax) as E2.
  pose proof (Erange SurfaceMin) as E3. pose proof (Erange SurfaceMax) as E4.
  pose proof (Erange PricePerMeterMin) as E5. pose proof (Erange PricePerMeterMax) as E6.
  pose proof (Erange BedroomMin) as E7.
  unfold normalize_zip_codes, with_zip_codes. simpl in *. congruence.
Qed.

Lemma translate_injective_witness :
  normalize_zip_codes (apply_defaults house_rent_2000)
  = normalize_zip_codes (with_zip_codes (Some []) (apply_defaults house_rent_2000)).
Proof.
  apply (translate_injective (apply_defaults house_rent_2000)
           (with_zip_codes (Some []) (apply_defaults house_rent_2000))).
  - apply (bool_decide_unpack _). vm_compute. exact I.
  - apply (bool_decide_unpack _). vm_compute. exact I.
  - vm_compute. reflexivity.
Defined.

(** ** The inner function on all its arguments *)

(** X13. [_search_melo_properties] itself checks no bound and no code:
    whatever integers it is given, [itemsPerPage] and [page] carry them as
    they are, and the two codes, optional here, are sent when given and
    left out when [None]. *)
Theorem inner_query_unchecked pt tt bmin bmax smin smax pmin pmax bed zips ob ipp pg :
  let q := build_params pt tt bmin bmax smin smax pmin pmax bed zips ob ipp pg in
  values_of "itemsPerPage" q = [str ipp] ∧
  values_of "page" q = [str pg] ∧
  values_of "propertyTypes[]" q = str <$> option_list pt ∧
  values_of "transactionType" q = str <$> option_list tt.
Proof. simpl. repeat split; by read_query. Qed.

Lemma length_values_of_append_order key ob :
  (length (values_of key (append_order ob [])) ≤ 1)%nat.
Proof.
  destruct ob as [s|]; simpl; [|lia].
  destruct (decide (s = "")); [simpl; lia|].
  destruct (decide (s = "pricePerMeter")); [rewrite values_of_cons; case_decide; simpl; lia|].
  destruct (decide (s = "price")); [rewrite values_of_cons; case_decide; simpl; lia|].
  destruct (decide (s = "updatedAt")); [rewrite values_of_cons; case_decide; simpl; lia|].
  simpl; lia.
Qed.

Lemma values_of_append_order_other key ob :
  key ∉ ["order[pricePerMeter]"; "order[price]"; "order[updatedAt]"] →
  values_of key (append_order ob []) = [].
Proof.
  rewrite !not_elem_of_cons. intros (? & ? & ? & _).
  destruct ob as [s|]; simpl; [|done].
  repeat case_decide; try done; rewrite values_of_cons; by rewrite decide_False by done.
Qed.

Lemma length_str_option_list (o : option Z) : (length (str <$> option_list o) ≤ 1)%nat.
Proof. destruct o; simpl; lia. Qed.

(** X14. No key other than [includedZipcodes[]] is ever repeated in a
    query. *)
Theorem only_zip_codes_repeat pt tt bmin bmax smin smax pmin pmax bed zips ob ipp pg key :
  key ≠ "includedZipcodes[]" →
  (length (values_of key
             (build_params pt tt bmin bmax smin smax pmin pmax bed zips ob ipp pg)) ≤ 1)%nat.
Proof.
  intros Hzip.
  rewrite build_params_eq, !values_of_app, !values_of_append_if_set, values_of_zipcodes,
    !values_of_cons, !length_app.
  rewrite (decide_False (P := "includedZipcodes[]" = key)) by done.
  pose proof (length_values_of_append_order key ob) as Horder.
  pose proof (length_str_option_list pt). pose proof (length_str_option_list tt).
  pose proof (length_str_option_list bmin). pose proof (length_str_option_list bmax).
  pose proof (length_str_option_list smin). pose proof (length_str_option_list smax).
  pose proof (length_str_option_list pmin). pose proof (length_str_option_list pmax).
  pose proof (length_str_option_list bed).
  destruct (decide (key = "order[pricePerMeter]")) as [->|?]; [simpl in *; lia|].
  destruct (decide (key = "order[price]")) as [->|?]; [simpl in *; lia|].
  destruct (decide (key = "order[updatedAt]")) as [->|?]; [simpl in *; lia|].
  rewrite (values_of_append_order_other key ob).
  2: { rewrite !not_elem_of_cons. repeat split; try done. apply not_elem_of_nil. }
  destruct (decide (key = "propertyTypes[]")) as [->|?]; [simpl in *; lia|].
  destruct (decide (key = "transactionType")) as [->|?]; [simpl in *; lia|].
  destruct (decide (key = "budgetMin")) as [->|?]; [simpl in *; lia|].
  destruct (decide (key = "budgetMax")) as [->|?]; [simpl in *; lia|].
  destruct (decide (key = "surfaceMin")) as [->|?]; [simpl in *; lia|].
  destruct (decide (key = "surfaceMax")) as [->|?]; [simpl in *; lia|].
  destruct (decide (key = "pricePerMeterMin")) as [->|?]; [simpl in *; lia|].
  destruct (decide (key = "pricePerMeterMax")) as [->|?]; [simpl in *; lia|].
  destruct (decide (key = "bedroomMin")) as [->|?]; [simpl in *; lia|].
  destruct (decide (key = "itemsPerPage")) as [->|?]; [simpl in *; lia|].
  destruct (decide (key = "page")) as [->|?]; [simpl in *; lia|].
  destruct (decide (key = "withCoherentPrice")) as [->|?]; [simpl in *; lia|].
  rewrite !decide_False by done. simpl. lia.
Qed.

Lemma only_zip_codes_repeat_witness :
  (length (values_of "order[price]"
             (build_params (Some 0%Z) (Some 1%Z) None (Some 2000%Z) None None None None
                (Some 2%Z) (Some ["75011"; "75011"]) (Some "price") 5%Z 1%Z)) ≤ 1)%nat.
Proof.
  apply (only_zip_codes_repeat (Some 0) (Some 1) None (Some 2000) None None None None
           (Some 2) (Some ["75011"; "75011"]) (Some "price") 5 1 "order[price]").
  discriminate.
Defined.

(** ** The defaults of the signature *)

(** X15. The defaults of the signature satisfy its own constraints: a call
    is valid exactly when each argument it does supply is, so leaving any
    argument out never makes a call invalid. *)
Theorem defaults_within_constraints a :
  valid (apply_defaults a) ↔
  (∀ s, arg_property_type a = Some s → s ∈ ["apartment"; "house"]) ∧
  (∀ s, arg_transaction_type a = Some s → s ∈ ["sell"; "rent"]) ∧
  (∀ s, arg_order_by a = Some s → s ∈ ["pricePerMeter"; "price"; "updatedAt"]) ∧
  (∀ n, arg_items_per_page a = Some n → 1 ≤ n ≤ 10) ∧
  (∀ n, arg_page a = Some n → 1 ≤ n).
Proof.
  unfold valid, apply_defaults; simpl. split.
  - intros (Hp & Ht & Ho & Hipp & Hpg).
    split; [|split; [|split; [|split]]].
    + intros s Hs. by rewrite Hs in Hp.
    + intros s Hs. by rewrite Hs in Ht.
    + intros s Hs. rewrite Hs in Ho. rewrite !elem_of_cons in Ho.
      rewrite !elem_of_cons.
      destruct Ho as [?|[?|[?|[?|Ho]]]]; simplify_eq; auto.
      by apply not_elem_of_nil in Ho.
    + intros n Hn. by rewrite Hn in Hipp.
    + intros n Hn. by rewrite Hn in Hpg.
  - intros (Hp & Ht & Ho & Hipp & Hpg).
    split; [|split; [|split; [|split]]].
    + destruct (arg_property_type a) as [s|]; simpl; [by apply Hp|].
      apply list_elem_of_here.
    + destruct (arg_transaction_type a) as [s|]; simpl; [by apply Ht|].
      apply list_elem_of_here.
    + destruct (arg_order_by a) as [s|]; [|apply list_elem_of_here].
      specialize (Ho s eq_refl). rewrite !elem_of_cons in Ho. rewrite !elem_of_cons.
      destruct Ho as [->|[->|[->|Ho]]]; auto. by apply not_elem_of_nil in Ho.
    + destruct (arg_items_per_page a) as [n|]; simpl; [by apply Hipp|lia].
    + destruct (arg_page a) as [n|]; simpl; [by apply Hpg|lia].
Qed.
